(** * native_bridge/bluetooth_bridge.py: the HTTP-to-serial command forwarder

    A shallow embedding of the Flask view [send_command], of the module-level
    [ser = serial.Serial('COM5', 9600, timeout=1)] and of the part of Python,
    Flask and pyserial the view relies on: [str] values as sequences of code
    points, [str.strip], [str.encode] (UTF-8, strict), [dict.get], the [+]
    operator, [request.json] as the releases of Werkzeug implement it,
    [Serial.write], with and without a device that reads, and Flask's
    translation of exceptions into HTTP responses. *)

From Stdlib Require Import ZArith NArith Strings.Byte Ascii String.
From stdpp Require Import gmap list option.

Local Open Scope N_scope.

(** ** Python [str]: a sequence of Unicode code points *)

Module PyStr.

(** A code point is a number below [0x110000]; a [str] is a list of them.
    Surrogates ([0xD800]..[0xDFFF]) are legal inside a [str] (json.loads
    produces them from an escape such as \ud800) but cannot be encoded. *)
Abbreviation codepoint := N (only parsing).
Abbreviation str := (list N) (only parsing).

Definition of_string (s : string) : str :=
  List.map N_of_ascii (list_ascii_of_string s).

(** The newline character ['\n']. *)
Definition LF : codepoint := 10.

(** [Py_UNICODE_ISSPACE]: the characters [str.strip()] removes. *)
Definition isspace (c : codepoint) : bool :=
  ((9 <=? c) && (c <=? 13)) || ((28 <=? c) && (c <=? 32))
  || (c =? 133) || (c =? 160) || (c =? 5760)
  || ((8192 <=? c) && (c <=? 8202))
  || (c =? 8232) || (c =? 8233) || (c =? 8239) || (c =? 8287)
  || (c =? 12288).

(** [str.lstrip()], [str.rstrip()] and [str.strip()] without argument. *)
Fixpoint lstrip (s : str) : str :=
  match s with
  | [] => []
  | c :: t => if isspace c then lstrip t else s
  end.

Definition rstrip (s : str) : str := rev (lstrip (rev s)).

Definition strip (s : str) : str := rstrip (lstrip s).

(** *** [str.encode()]: UTF-8 with [errors='strict'] *)

Definition byte_of_N (n : N) : byte :=
  match Byte.of_N (n mod 256) with
  | Some b => b
  | None => x00
  end.

Definition is_surrogate (c : codepoint) : bool :=
  (55296 <=? c) && (c <=? 57343).

(** Continuation byte number [k] (counted from the last one) of [c]. *)
Definition cont (c : codepoint) (k : N) : byte :=
  byte_of_N (N.lor 128 (N.land (N.shiftr c (6 * k)) 63)).

Definition encode_cp (c : codepoint) : option (list byte) :=
  if c <? 128 then Some [byte_of_N c]
  else if c <? 2048 then
    Some [byte_of_N (N.lor 192 (N.shiftr c 6)); cont c 0]
  else if c <? 65536 then
    if is_surrogate c then None
    else Some [byte_of_N (N.lor 224 (N.shiftr c 12)); cont c 1; cont c 0]
  else if c <? 1114112 then
    Some [byte_of_N (N.lor 240 (N.shiftr c 18)); cont c 2; cont c 1; cont c 0]
  else None.

(** [None] stands for [UnicodeEncodeError]. *)
Fixpoint encode (s : str) : option (list byte) :=
  match s with
  | [] => Some []
  | c :: t =>
      match encode_cp c, encode t with
      | Some b, Some bs => Some (b ++ bs)
      | _, _ => None
      end
  end.

End PyStr.

Import PyStr.

Notation "'py' s" := (of_string s%string) (at level 1, s at level 0, only parsing).

(** ** Python values produced by [json.loads] *)

#[local] Set Warnings "-register-all".

Inductive pyfloat :=
| Finite (mantissa exponent : Z)
| Infinity (negative : bool)
| NaN.

Inductive pyval :=
| VNone
| VBool (b : bool)
| VInt (z : Z)
| VFloat (f : pyfloat)
| VStr (s : str)
| VList (l : list pyval)
| VDict (d : gmap str pyval).

(** ** Exceptions the view can raise *)

Inductive exn :=
| BadRequest              (* werkzeug.exceptions.BadRequest, 400 *)
| UnsupportedMediaType    (* werkzeug.exceptions.UnsupportedMediaType, 415 *)
| AttributeError
| TypeError
| UnicodeEncodeError
| PortNotOpenError        (* serial.PortNotOpenError, a SerialException *)
| SerialException.


(** ** The serial port, as pyserial presents it *)

Module Serial.

(** State of the line behind the port. On a line that is [Down k] a write
    raises after at most [k] bytes have left the host. *)
Inductive link := Up | Down (k : nat).

(** Calls a program can make on the pyserial API. *)
Inductive call :=
| Open (port : str) (baudrate timeout : N)
| Write (data : list byte)
| Read (size : N)
| Close.

(** [is_open]: the flag of the [Serial] object; [rx]: every byte the device
    has received so far, in order; [log]: the calls made, oldest first. *)
Record t := mk {
  is_open : bool;
  line : link;
  rx : list byte;
  log : list call
}.

(** What the operating system offers when the process starts. *)
Record host := { openable : bool; line0 : link }.

Definition record (c : call) (s : t) : t :=
  mk (is_open s) (line s) (rx s) (log s ++ [c]).

Definition deliver (bs : list byte) (s : t) : t :=
  mk (is_open s) (line s) (rx s ++ bs) (log s).

(** [serial.Serial(port, baudrate, timeout=timeout)]: the constructor opens
    the port at once and raises [SerialException] when it cannot. *)
Definition open (h : host) (port : str) (baudrate timeout : N) : exn + t :=
  if openable h
  then inr (mk true (line0 h) [] [Open port baudrate timeout])
  else inl SerialException.

(** [Serial.write(data)]: raises [PortNotOpenError] on a closed object,
    [SerialException] when the operating system refuses the bytes, and
    otherwise returns the number of bytes written, all of [data]. This is
    the call on a device that reads what it is sent; the call that waits
    for a device that does not is [Blocking.write] below. *)
Definition write (data : list byte) (s : t) : (exn + N) * t :=
  let s1 := record (Write data) s in
  if negb (is_open s) then (inl PortNotOpenError, s1)
  else match line s with
       | Down k => (inl SerialException, deliver (take k data) s1)
       | Up => (inr (N.of_nat (length data)), deliver data s1)
       end.

Definition available (s : t) : bool :=
  is_open s && match line s with Up => true | Down _ => false end.

End Serial.

(** ** Computations of the view: state of the port plus exceptions *)

Definition M (A : Type) : Type := Serial.t -> (exn + A) * Serial.t.

#[global] Instance M_ret : MRet M := fun A a s => (inr a, s).

#[global] Instance M_bind : MBind M := fun A B f m s =>
  match m s with
  | (inr a, s') => f a s'
  | (inl e, s') => (inl e, s')
  end.

Definition lift {A} (r : exn + A) : M A := fun s => (r, s).

(** ** The HTTP request, as Flask presents it to the view *)

(** The body of a POST to [/send]: sent without a JSON content type, sent as
    JSON but not parsable, or parsed by [json.loads] into a value. *)
Inductive request :=
| NotJson
| Malformed
| Json (v : pyval).

Record response := { status_code : N; payload : option pyval }.

(** The releases of Werkzeug, as far as [request.json] tells them apart:
    before 2.1 a body whose content type is not JSON gives [None]; 2.1 and
    2.2 raise [BadRequest]; from 2.3 on it is [UnsupportedMediaType]. *)
Inductive werkzeug :=
| Before_2_1
| From_2_1
| From_2_3.

Section Forwarder.

(** The installed Werkzeug decides what [request.json] does with a body
    whose content type is not JSON. *)
Variable wz : werkzeug.

(** [request.json] *)
Definition request_json (r : request) : exn + pyval :=
  match r with
  | NotJson =>
      match wz with
      | Before_2_1 => inr VNone
      | From_2_1 => inl BadRequest
      | From_2_3 => inl UnsupportedMediaType
      end
  | Malformed => inl BadRequest
  | Json v => inr v
  end.

(** [v.get(key, default)]: only a [dict] has the method. *)
Definition py_get (v : pyval) (key : str) (default : pyval) : exn + pyval :=
  match v with
  | VDict d => inr (match d !! key with Some x => x | None => default end)
  | _ => inl AttributeError
  end.

(** [v + s] for a [str] [s]: concatenation when [v] is a [str]; no other
    value that [json.loads] returns can be added to a [str]. *)
Definition py_add_str (v : pyval) (s : str) : exn + str :=
  match v with
  | VStr c => inr (c ++ s)
  | _ => inl TypeError
  end.

(** [s.encode()] *)
Definition py_encode (s : str) : exn + list byte :=
  match encode s with
  | Some bs => inr bs
  | None => inl UnicodeEncodeError
  end.

Definition ack (command : str) : pyval :=
  VDict {[ py"status" := VStr py"sent"; py"command" := VStr command ]}.

(** The view:
<<
    command = request.json.get('command', '') + '\n'
    ser.write(command.encode())
    return {'status': 'sent', 'command': command.strip()}
>> *)
Definition send_command (r : request) : M pyval :=
  j ← lift (request_json r);
  c ← lift (py_get j py"command" (VStr []));
  command ← lift (py_add_str c [LF]);
  data ← lift (py_encode command);
  _ ← Serial.write data;
  mret (ack (strip command)).

(** Flask around the view: a returned [dict] becomes a 200 JSON response,
    an [HTTPException] the response of its code, and any other exception a
    500 response; the process goes on to the next request. *)
Definition http_code (e : exn) : N :=
  match e with
  | BadRequest => 400
  | UnsupportedMediaType => 415
  | _ => 500
  end.

Definition dispatch (r : request) (s : Serial.t) : response * Serial.t :=
  match send_command r s with
  | (inr v, s') => ({| status_code := 200; payload := Some v |}, s')
  | (inl e, s') => ({| status_code := http_code e; payload := None |}, s')
  end.

(** What happens while the process runs: requests arrive one after the
    other, and between them the line or the handle may change under it. *)
Inductive input :=
| Request (r : request)
| LineChange (l : Serial.link)
| HandleClosed.

Definition step (i : input) (s : Serial.t) : list response * Serial.t :=
  match i with
  | Request r => let (resp, s') := dispatch r s in ([resp], s')
  | LineChange l =>
      ([], Serial.mk (Serial.is_open s) l (Serial.rx s) (Serial.log s))
  | HandleClosed =>
      ([], Serial.mk false (Serial.line s) (Serial.rx s) (Serial.log s))
  end.

Fixpoint serve (ins : list input) (s : Serial.t) : list response * Serial.t :=
  match ins with
  | [] => ([], s)
  | i :: rest =>
      let (out, s1) := step i s in
      let (outs, s2) := serve rest s1 in
      (out ++ outs, s2)
  end.

(** The module: [ser = serial.Serial('COM5', 9600, timeout=1)] runs first;
    an exception there ends the interpreter before [app.run(port=5000)]. *)
Inductive outcome :=
| Crashed (e : exn)
| Served (responses : list response) (final : Serial.t).

Definition main (h : Serial.host) (ins : list input) : outcome :=
  match Serial.open h py"COM5" 9600 1 with
  | inl e => Crashed e
  | inr ser => let (out, s) := serve ins ser in Served out s
  end.

(** *** Derived notions used to state the properties *)

(** The string the view binds to [command], when it gets that far. *)
Definition command_of (r : request) : exn + str :=
  match request_json r with
  | inl e => inl e
  | inr j =>
      match py_get j py"command" (VStr []) with
      | inl e => inl e
      | inr c => py_add_str c [LF]
      end
  end.

(** The argument of [ser.write], when the view gets that far. *)
Definition wire (r : request) : exn + list byte :=
  match command_of r with
  | inl e => inl e
  | inr command => py_encode command
  end.

(** The bytes a request asks the device to receive. *)
Definition wanted (r : request) : list byte :=
  match wire r with
  | inr data => data
  | inl _ => []
  end.

End Forwarder.

(** Counting on the call log. *)
Definition is_Open (c : Serial.call) : bool :=
  match c with Serial.Open _ _ _ => true | _ => false end.

Definition is_Close (c : Serial.call) : bool :=
  match c with Serial.Close => true | _ => false end.

Definition is_Read (c : Serial.call) : bool :=
  match c with Serial.Read _ => true | _ => false end.

Definition is_Write (c : Serial.call) : bool :=
  match c with Serial.Write _ => true | _ => false end.

Definition count (p : Serial.call -> bool) (l : list Serial.call) : nat :=
  length (List.filter p l).

(** Handles open after the calls of [l]: one more per [Open], one fewer per
    [Close]. *)
Definition handles_open (l : list Serial.call) : Z :=
  (Z.of_nat (count is_Open l) - Z.of_nat (count is_Close l))%Z.

(** A port that is open on a working line and has seen no traffic. *)
Definition fresh : Serial.t := Serial.mk true Serial.Up [] [].

(** ** The route: [@app.route('/send', methods=['POST'])] *)

Inductive http_method := GET | HEAD | POST | PUT | DELETE | PATCH | OPTIONS.

(** An HTTP request as the WSGI server hands it to Flask: the method, the
    decoded path ([PATH_INFO], without the query string) and the body. *)
Record http_request := {
  method : http_method;
  path : str;
  body : request
}.

#[global] Instance http_method_eq_dec : EqDecision http_method.
Proof. solve_decision. Defined.

Section Routing.

Variable wz : werkzeug.

(** What Flask answers on every URL other than [/send] (its static-file
    rule, redirects, 404): none of it is code of this module, and none of it
    is given the handle [ser]. *)
Variable elsewhere : http_method -> str -> response.

(** The rule [/send] accepts [POST], and [OPTIONS], which Flask answers by
    itself; any other method on it is 405 Method Not Allowed. Only a [POST]
    calls the view. *)
Definition wsgi_app (q : http_request) (s : Serial.t) : response * Serial.t :=
  if decide (path q = py"/send") then
    match method q with
    | POST => dispatch wz (body q) s
    | OPTIONS => ({| status_code := 200; payload := None |}, s)
    | _ => ({| status_code := 405; payload := None |}, s)
    end
  else (elsewhere (method q) (path q), s).

Fixpoint serve_http (qs : list http_request) (s : Serial.t)
  : list response * Serial.t :=
  match qs with
  | [] => ([], s)
  | q :: rest =>
      let (resp, s1) := wsgi_app q s in
      let (resps, s2) := serve_http rest s1 in
      (resp :: resps, s2)
  end.

(** Whether a request is one the view is called for. *)
Definition reaches_view (q : http_request) : bool :=
  bool_decide (path q = py"/send") && bool_decide (method q = POST).

End Routing.

(** *** Derived notions on sequences of inputs *)

(** The requests among the inputs, in arrival order. *)
Fixpoint requests_of (ins : list input) : list request :=
  match ins with
  | [] => []
  | Request r :: rest => r :: requests_of rest
  | _ :: rest => requests_of rest
  end.

(** The arguments of the [ser.write] calls that the requests [rs] lead to:
    one per request whose view gets as far as the write. *)
Fixpoint payloads (wz : werkzeug) (rs : list request) : list (list byte) :=
  match rs with
  | [] => []
  | r :: rest =>
      match wire wz r with
      | inr data => data :: payloads wz rest
      | inl _ => payloads wz rest
      end
  end.

(** Number of newline bytes in what goes to the device, and of newline
    characters in a command. *)
Definition newline_bytes (bs : list byte) : nat :=
  List.count_occ Byte.byte_eq_dec bs x0a.

Definition newline_chars (s : str) : nat :=
  List.count_occ N.eq_dec s LF.

(** ** Writes that block *)

(** [ser] is built with [timeout=1] only. That is the read timeout;
    [write_timeout] keeps its default, [None], and with it [Serial.write]
    waits until the operating system has taken every byte. Behind a device
    that has stopped reading, the call does not return once the buffer of
    the operating system is full. This module runs the same view on a port
    that can be in that condition, so that a request has three outcomes: the
    view returns, it raises, or it is still inside [ser.write]. *)
Module Blocking.

Inductive result (A : Type) :=
| Returned (a : A)
| Raised (e : exn)
| Blocked.

Arguments Returned {A} a.
Arguments Raised {A} e.
Arguments Blocked {A}.

(** [stall = None]: the device reads what it is sent. [stall = Some k]: it
    has stopped reading and the operating system has room for [k] more
    bytes. *)
Record port := mk {
  ser : Serial.t;
  stall : option nat
}.

(** [Serial.write(data)] with [write_timeout=None]: the exceptions of
    [Serial.write] come first; otherwise the call returns when everything
    has been taken, and blocks after [k] bytes when there is room for [k]
    only. *)
Definition write (data : list byte) (p : port) : result N * port :=
  match Serial.write data (ser p) with
  | (inl e, s') => (Raised e, mk s' (stall p))
  | (inr n, s') =>
      match stall p with
      | None => (Returned n, mk s' None)
      | Some k =>
          if decide (length data <= k)%nat
          then (Returned n, mk s' (Some (k - length data)%nat))
          else (Blocked,
                mk (Serial.deliver (take k data)
                      (Serial.record (Serial.Write data) (ser p)))
                   (Some 0%nat))
      end
  end.

Definition M (A : Type) : Type := port -> result A * port.

#[global] Instance M_ret : MRet M := fun A a p => (Returned a, p).

#[global] Instance M_bind : MBind M := fun A B f m p =>
  match m p with
  | (Returned a, p') => f a p'
  | (Raised e, p') => (Raised e, p')
  | (Blocked, p') => (Blocked, p')
  end.

Definition lift {A} (r : exn + A) : M A := fun p =>
  (match r with inl e => Raised e | inr a => Returned a end, p).

Section View.

Variable wz : werkzeug.

(** The view, line for line as [send_command] above. *)
Definition send_command (r : request) : M pyval :=
  j ← lift (request_json wz r);
  c ← lift (py_get j py"command" (VStr []));
  command ← lift (py_add_str c [LF]);
  data ← lift (py_encode command);
  _ ← write data;
  mret (ack (strip command)).

(** Flask around the view: [None] when the view has not come back, so that
    the client is still waiting for its response. *)
Definition dispatch (r : request) (p : port) : option response * port :=
  match send_command r p with
  | (Returned v, p') => (Some {| status_code := 200; payload := Some v |}, p')
  | (Raised e, p') =>
      (Some {| status_code := http_code e; payload := None |}, p')
  | (Blocked, p') => (None, p')
  end.

End View.

(** A result of the view on a port that drains, seen as one on a port that
    may stall. *)
Definition of_run {A} (x : (exn + A) * Serial.t) (st : option nat)
  : result A * port :=
  (match x.1 with inl e => Raised e | inr a => Returned a end, mk x.2 st).

End Blocking.

(** * Properties *)

(** ** Strings *)

Section StrFacts.

Lemma lstrip_snoc (s : str) (c : N) :
  isspace c = true ->
  lstrip (s ++ [c]) = match lstrip s with [] => [] | _ :: _ => lstrip s ++ [c] end.
Proof.
  intros Hc. induction s as [|a t IH]; simpl.
  - now rewrite Hc.
  - destruct (isspace a); [exact IH | reflexivity].
Qed.

Lemma rstrip_snoc (s : str) (c : N) :
  isspace c = true -> rstrip (s ++ [c]) = rstrip s.
Proof.
  intros Hc. unfold rstrip. rewrite rev_app_distr. simpl. now rewrite Hc.
Qed.

Lemma strip_snoc (s : str) (c : N) :
  isspace c = true -> strip (s ++ [c]) = strip s.
Proof.
  intros Hc. unfold strip. rewrite (lstrip_snoc s c Hc).
  destruct (lstrip s) as [|a t] eqn:E; [reflexivity|].
  now apply rstrip_snoc.
Qed.

Lemma strip_newline (s : str) : strip (s ++ [LF]) = strip s.
Proof. now apply strip_snoc. Qed.

Lemma encode_app (s t : str) :
  encode (s ++ t) =
  match encode s, encode t with
  | Some a, Some b => Some (a ++ b)
  | _, _ => None
  end.
Proof.
  induction s as [|c s IH]; simpl.
  - now destruct (encode t).
  - rewrite IH. destruct (encode_cp c), (encode s), (encode t); simpl;
      try reflexivity. now rewrite app_assoc.
Qed.

Lemma encode_newline (s : str) (bs : list byte) :
  encode s = Some bs -> encode (s ++ [LF]) = Some (bs ++ [x0a]).
Proof. intros E. rewrite encode_app, E. reflexivity. Qed.

Lemma encode_newline_inv (s : str) (data : list byte) :
  encode (s ++ [LF]) = Some data ->
  exists bs, encode s = Some bs /\ data = bs ++ [x0a].
Proof.
  rewrite encode_app. destruct (encode s) as [bs|]; [|discriminate].
  simpl. intros [= <-]. now exists bs.
Qed.

End StrFacts.


(** ** The port *)

Section SerialFacts.

Lemma available_inv (s : Serial.t) :
  Serial.available s = true ->
  Serial.is_open s = true /\ Serial.line s = Serial.Up.
Proof.
  unfold Serial.available. destruct (Serial.is_open s), (Serial.line s);
    simpl; intros; split; congruence.
Qed.

Lemma write_available (data : list byte) (s : Serial.t) :
  Serial.available s = true ->
  Serial.write data s =
  (inr (N.of_nat (length data)),
   Serial.mk true Serial.Up (Serial.rx s ++ data)
     (Serial.log s ++ [Serial.Write data])).
Proof.
  intros [Ho Hl]%available_inv.
  unfold Serial.write, Serial.deliver, Serial.record. simpl.
  rewrite Ho, Hl. reflexivity.
Qed.


(** A write touches neither the flag nor the line, logs itself, and hands
    the device a prefix of its argument. *)
Lemma write_frame (data : list byte) (s : Serial.t) :
  let s' := (Serial.write data s).2 in
  Serial.is_open s' = Serial.is_open s /\
  Serial.line s' = Serial.line s /\
  Serial.log s' = Serial.log s ++ [Serial.Write data] /\
  exists k, Serial.rx s' = Serial.rx s ++ take k data.
Proof.
  unfold Serial.write.
  destruct (Serial.is_open s) eqn:Ho, (Serial.line s) as [|k] eqn:Hl; simpl;
    repeat split; try assumption.
  - exists (length data). now rewrite firstn_all.
  - now exists k.
  - exists 0%nat. now rewrite app_nil_r.
  - exists 0%nat. now rewrite app_nil_r.
Qed.

End SerialFacts.

(** ** The view *)

Section ViewFacts.

Variable wz : werkzeug.

Lemma send_command_unfold (r : request) (s : Serial.t) :
  send_command wz r s =
  match command_of wz r with
  | inl e => (inl e, s)
  | inr command =>
      match py_encode command with
      | inl e => (inl e, s)
      | inr data =>
          match Serial.write data s with
          | (inr _, s') => (inr (ack (strip command)), s')
          | (inl e, s') => (inl e, s')
          end
      end
  end.
Proof.
  unfold send_command, command_of, mbind, M_bind, lift.
  destruct (request_json wz r) as [e|j]; [reflexivity|].
  destruct (py_get j _ _) as [e|c]; [reflexivity|].
  destruct (py_add_str c _) as [e|command]; [reflexivity|].
  destruct (py_encode command) as [e|data]; reflexivity.
Qed.

(** An exception raised before the write leaves the port as it was. *)
Lemma send_command_early (r : request) (e : exn) (s : Serial.t) :
  wire wz r = inl e -> send_command wz r s = (inl e, s).
Proof.
  intros H. rewrite send_command_unfold. unfold wire in H.
  destruct (command_of wz r) as [e'|command]; [congruence|].
  destruct (py_encode command); congruence.
Qed.

Lemma command_of_dict_str (d : gmap str pyval) (c : str) :
  d !! py"command" = Some (VStr c) ->
  command_of wz (Json (VDict d)) = inr (c ++ [LF]).
Proof. intros H. unfold command_of. simpl. now rewrite H. Qed.

Lemma command_of_dict_missing (d : gmap str pyval) :
  d !! py"command" = None ->
  command_of wz (Json (VDict d)) = inr [LF].
Proof. intros H. unfold command_of. simpl. now rewrite H. Qed.

Lemma wire_command (r : request) (data : list byte) :
  wire wz r = inr data ->
  exists command,
    command_of wz r = inr command /\ py_encode command = inr data.
Proof.
  unfold wire. destruct (command_of wz r) as [e|command]; [discriminate|].
  intros H. now exists command.
Qed.

Lemma dispatch_sent (r : request) (command : str) (data : list byte)
      (s : Serial.t) :
  command_of wz r = inr command ->
  encode command = Some data ->
  Serial.available s = true ->
  dispatch wz r s =
  ({| status_code := 200; payload := Some (ack (strip command)) |},
   Serial.mk true Serial.Up (Serial.rx s ++ data)
     (Serial.log s ++ [Serial.Write data])).
Proof.
  intros Hc He Ha. unfold dispatch. rewrite send_command_unfold, Hc.
  unfold py_encode. rewrite He, (write_available data s Ha). reflexivity.
Qed.

End ViewFacts.

Section AckFacts.

Lemma ack_fields (c : str) :
  exists d, ack c = VDict d /\
    d !! py"status" = Some (VStr py"sent") /\
    d !! py"command" = Some (VStr c).
Proof.
  eexists. split; [reflexivity|]. split.
  - apply lookup_insert_eq.
  - rewrite lookup_insert_ne by (vm_compute; discriminate).
    apply lookup_singleton_eq.
Qed.

End AckFacts.

Section DispatchFacts.

Variable wz : werkzeug.

Lemma dispatch_early (r : request) (e : exn) (s : Serial.t) :
  wire wz r = inl e ->
  dispatch wz r s = ({| status_code := http_code e; payload := None |}, s).
Proof.
  intros H. unfold dispatch. now rewrite (send_command_early wz r e s H).
Qed.

(** Whatever the request and the state of the port, the view leaves the
    flag and the line alone, logs the one write it reaches and nothing
    else, and the device receives a prefix of the bytes asked for. *)
Lemma dispatch_frame (r : request) (s : Serial.t) :
  let s' := (dispatch wz r s).2 in
  Serial.is_open s' = Serial.is_open s /\
  Serial.line s' = Serial.line s /\
  Serial.log s' =
    Serial.log s ++
    match wire wz r with
    | inr data => [Serial.Write data]
    | inl _ => []
    end /\
  exists k, Serial.rx s' = Serial.rx s ++ take k (wanted wz r).
Proof.
  unfold wanted. destruct (wire wz r) as [e|data] eqn:Hw.
  - rewrite (dispatch_early r e s Hw). simpl.
    repeat split; [now rewrite app_nil_r|].
    exists 0%nat. simpl. now rewrite app_nil_r.
  - destruct (wire_command wz r data Hw) as (command & Hc & He).
    unfold dispatch. rewrite send_command_unfold, Hc, He.
    pose proof (write_frame data s) as Hf.
    destruct (Serial.write data s) as [[e|n] s1]; exact Hf.
Qed.

Lemma dispatch_available (r : request) (s : Serial.t) :
  Serial.available s = true ->
  Serial.available (dispatch wz r s).2 = true /\
  Serial.rx (dispatch wz r s).2 = Serial.rx s ++ wanted wz r.
Proof.
  intros Ha. unfold wanted. destruct (wire wz r) as [e|data] eqn:Hw.
  - rewrite (dispatch_early r e s Hw). simpl. now rewrite app_nil_r.
  - destruct (wire_command wz r data Hw) as (command & Hc & He).
    unfold py_encode in He. destruct (encode command) as [bs|] eqn:E;
      [|discriminate]. injection He as ->.
    now rewrite (dispatch_sent wz r command data s Hc E Ha).
Qed.

Lemma serve_cons (i : input) (rest : list input) (s : Serial.t) :
  serve wz (i :: rest) s =
  ((step wz i s).1 ++ (serve wz rest (step wz i s).2).1,
   (serve wz rest (step wz i s).2).2).
Proof.
  cbn [serve]. destruct (step wz i s) as [out s1]. cbn [fst snd].
  now destruct (serve wz rest s1).
Qed.

Lemma step_request (r : request) (s : Serial.t) :
  step wz (Request r) s =
  ([(dispatch wz r s).1], (dispatch wz r s).2).
Proof. unfold step. now destruct (dispatch wz r s). Qed.

(** The server only ever appends writes to the call log. *)
Lemma step_log (i : input) (s : Serial.t) :
  exists ws,
    Serial.log (step wz i s).2 = Serial.log s ++ map Serial.Write ws.
Proof.
  destruct i as [r| |].
  - rewrite step_request. simpl.
    destruct (dispatch_frame r s) as (_ & _ & Hl & _). rewrite Hl.
    destruct (wire wz r) as [e|data]; [now exists []|now exists [data]].
  - exists []. simpl. now rewrite app_nil_r.
  - exists []. simpl. now rewrite app_nil_r.
Qed.

Lemma serve_log (ins : list input) (s : Serial.t) :
  exists ws,
    Serial.log (serve wz ins s).2 = Serial.log s ++ map Serial.Write ws.
Proof.
  revert s. induction ins as [|i rest IH]; intros s.
  - exists []. simpl. now rewrite app_nil_r.
  - rewrite serve_cons. simpl.
    destruct (step_log i s) as [w1 H1].
    destruct (IH (step wz i s).2) as [w2 H2].
    exists (w1 ++ w2). rewrite H2, H1, map_app. now rewrite app_assoc.
Qed.

End DispatchFacts.

Section LogFacts.

Lemma count_writes (p : Serial.call -> bool) (ws : list (list byte)) :
  (forall data, p (Serial.Write data) = false) ->
  count p (map Serial.Write ws) = 0%nat.
Proof.
  intros Hp. unfold count. induction ws as [|w ws IH]; simpl; [reflexivity|].
  now rewrite Hp.
Qed.

Lemma count_app (p : Serial.call -> bool) (l k : list Serial.call) :
  count p (l ++ k) = (count p l + count p k)%nat.
Proof. unfold count. now rewrite List.filter_app, length_app. Qed.

Lemma take_opened (n : nat) (c : Serial.call) (ws : list (list byte)) :
  take n (c :: map Serial.Write ws) = [] \/
  exists ws', take n (c :: map Serial.Write ws) = c :: map Serial.Write ws'.
Proof.
  destruct n as [|n]; [now left|right]. simpl.
  exists (take n ws). f_equal. symmetry. apply fmap_take.
Qed.

End LogFacts.

(** * The claims *)

(** ** C1: forwarding a command string *)

(** C1 (as amended). For every command string [C] that UTF-8 can encode to
    bytes [bs], on a port that is open on a working line, SendCommand on a
    body whose [command] field is [C] writes exactly [bs] followed by one
    newline byte in one write, and answers 200 with status "sent" and command
    equal to [C] with the whitespace removed from BOTH of its ends; interior
    characters are kept. *)
Theorem send_command_forwards
        (wz : werkzeug) (d : gmap str pyval) (C : str) (bs : list byte)
        (s : Serial.t) :
  d !! py"command" = Some (VStr C) ->
  encode C = Some bs ->
  Serial.available s = true ->
  dispatch wz (Json (VDict d)) s =
  ({| status_code := 200; payload := Some (ack (strip C)) |},
   Serial.mk true Serial.Up (Serial.rx s ++ bs ++ [x0a])
     (Serial.log s ++ [Serial.Write (bs ++ [x0a])])).
Proof.
  intros Hd He Ha.
  rewrite (dispatch_sent wz _ (C ++ [LF]) (bs ++ [x0a]) s);
    [ now rewrite strip_newline
    | now apply command_of_dict_str
    | now apply encode_newline
    | exact Ha ].
Qed.

Lemma send_command_forwards_witness :
  Serial.available fresh = true /\
  dispatch From_2_3 (Json (VDict {[ py"command" := VStr py"MOVE 10 20" ]})) fresh =
  ({| status_code := 200; payload := Some (ack (strip py"MOVE 10 20")) |},
   Serial.mk true Serial.Up
     (Serial.rx fresh ++
      ["M"; "O"; "V"; "E"; " "; "1"; "0"; " "; "2"; "0"]%byte ++ [x0a])
     (Serial.log fresh ++
      [Serial.Write
         (["M"; "O"; "V"; "E"; " "; "1"; "0"; " "; "2"; "0"]%byte ++ [x0a])])).
Proof.
  split; [reflexivity|].
  apply (send_command_forwards From_2_3 _ py"MOVE 10 20"); vm_compute; reflexivity.
Defined.

(** C1, as the claim words it, fails: the echoed command keeps no leading
    whitespace. The body [{"command": " LED_ON"}] is answered with command
    "LED_ON", which is not " LED_ON" trimmed at its end only. *)
Lemma leading_whitespace_is_dropped :
  (dispatch From_2_3 (Json (VDict {[ py"command" := VStr py" LED_ON" ]})) fresh).1
  = {| status_code := 200; payload := Some (ack py"LED_ON") |}
  /\ rstrip py" LED_ON" = py" LED_ON"
  /\ ack py"LED_ON" <> ack (rstrip py" LED_ON").
Proof.
  split; [|split].
  - vm_compute. reflexivity.
  - vm_compute. reflexivity.
  - intros H.
    destruct (ack_fields py"LED_ON") as (d1 & E1 & _ & C1).
    destruct (ack_fields (rstrip py" LED_ON")) as (d2 & E2 & _ & C2).
    rewrite E1, E2 in H. injection H as ->. rewrite C1 in C2.
    vm_compute in C2. discriminate.
Qed.

(** ** C2: requests without a usable [command] *)

(** C2 (as amended). For every request whose body is a JSON object without a
    [command] field, on a port that is open on a working line, SendCommand
    writes a single newline byte and answers 200 with command the empty
    string. A body that is not valid JSON is not treated as an empty command:
    it is answered 400 and nothing is written. *)
Theorem missing_command_sends_newline
        (wz : werkzeug) (d : gmap str pyval) (s : Serial.t) :
  d !! py"command" = None ->
  Serial.available s = true ->
  dispatch wz (Json (VDict d)) s =
  ({| status_code := 200; payload := Some (ack []) |},
   Serial.mk true Serial.Up (Serial.rx s ++ [x0a])
     (Serial.log s ++ [Serial.Write [x0a]]))
  /\ dispatch wz Malformed s =
     ({| status_code := 400; payload := None |}, s).
Proof.
  intros Hd Ha. split.
  - now rewrite (dispatch_sent wz _ [LF] [x0a] s
                   (command_of_dict_missing wz d Hd) eq_refl Ha).
  - exact (dispatch_early wz Malformed BadRequest s eq_refl).
Qed.

Lemma missing_command_sends_newline_witness :
  Serial.available fresh = true /\
  dispatch From_2_3 (Json (VDict ∅)) fresh =
  ({| status_code := 200; payload := Some (ack []) |},
   Serial.mk true Serial.Up [x0a] [Serial.Write [x0a]]).
Proof.
  split; [reflexivity|].
  apply (missing_command_sends_newline From_2_3 ∅ fresh); reflexivity.
Defined.

(** C2, as the claim words it, fails on a body that is not valid JSON: the
    response is a 400 and the port has seen no write. *)
Lemma unparsable_body_is_rejected :
  dispatch From_2_3 Malformed fresh =
  ({| status_code := 400; payload := None |}, fresh)
  /\ dispatch From_2_3 Malformed fresh <>
     ({| status_code := 200; payload := Some (ack []) |},
      Serial.mk true Serial.Up [x0a] [Serial.Write [x0a]]).
Proof.
  assert (E : dispatch From_2_3 Malformed fresh =
              ({| status_code := 400; payload := None |}, fresh))
    by reflexivity.
  split; [exact E|]. rewrite E. discriminate.
Qed.

(** ** C3: a port that cannot take the write *)

Section BlockingFacts.

Variable wz : werkzeug.



Lemma blocking_send_command_unfold (r : request) (p : Blocking.port) :
  Blocking.send_command wz r p =
  match command_of wz r with
  | inl e => (Blocking.Raised e, p)
  | inr command =>
      match py_encode command with
      | inl e => (Blocking.Raised e, p)
      | inr data =>
          match Blocking.write data p with
          | (Blocking.Returned _, p') =>
              (Blocking.Returned (ack (strip command)), p')
          | (Blocking.Raised e, p') => (Blocking.Raised e, p')
          | (Blocking.Blocked, p') => (Blocking.Blocked, p')
          end
      end
  end.
Proof.
  unfold Blocking.send_command, command_of, mbind, Blocking.M_bind,
    Blocking.lift.
  destruct (request_json wz r) as [e|j]; [reflexivity|].
  destruct (py_get j _ _) as [e|c]; [reflexivity|].
  destruct (py_add_str c _) as [e|command]; [reflexivity|].
  destruct (py_encode command) as [e|data]; reflexivity.
Qed.


(** While the device reads what it is sent, the view does on a port that
    may stall what it does on one that cannot. *)
Lemma blocking_send_command_draining (r : request) (p : Blocking.port) :
  Blocking.stall p = None ->
  Blocking.send_command wz r p =
  Blocking.of_run (send_command wz r (Blocking.ser p)) None.
Proof.
  intros Hs. rewrite blocking_send_command_unfold, send_command_unfold.
  destruct p as [s st]. simpl in Hs. subst st. cbn [Blocking.ser].
  destruct (command_of wz r) as [e|command]; [reflexivity|].
  destruct (py_encode command) as [e|data]; [reflexivity|].
  unfold Blocking.write. cbn [Blocking.ser Blocking.stall].
  destruct (Serial.write data s) as [[e|n] s']; reflexivity.
Qed.

End BlockingFacts.




(** ** C4: the success path *)

(** C4. For every request on which [ser.write] returns, the response has
    status 200 and its body is the acknowledgement, whose [status] field is
    the string "sent" and whose [command] field is the stripped command. *)
Theorem success_is_200_sent
        (wz : werkzeug) (r : request) (s s' : Serial.t)
        (data : list byte) (n : N) :
  wire wz r = inr data ->
  Serial.write data s = (inr n, s') ->
  exists command d,
    command_of wz r = inr command /\
    dispatch wz r s =
      ({| status_code := 200; payload := Some (VDict d) |}, s') /\
    d !! py"status" = Some (VStr py"sent") /\
    d !! py"command" = Some (VStr (strip command)).
Proof.
  intros Hw Hwr.
  destruct (wire_command wz r data Hw) as (command & Hc & He).
  destruct (ack_fields (strip command)) as (d & Hd & Hs & Hk).
  exists command, d. split; [exact Hc|]. split; [|now split].
  unfold dispatch. now rewrite send_command_unfold, Hc, He, Hwr, Hd.
Qed.

Lemma success_is_200_sent_witness :
  exists command d,
    command_of From_2_3 (Json (VDict ∅)) = inr command /\
    dispatch From_2_3 (Json (VDict ∅)) fresh =
      ({| status_code := 200; payload := Some (VDict d) |},
       Serial.mk true Serial.Up [x0a] [Serial.Write [x0a]]) /\
    d !! py"status" = Some (VStr py"sent") /\
    d !! py"command" = Some (VStr (strip command)).
Proof.
  apply (success_is_200_sent From_2_3 (Json (VDict ∅)) fresh _ [x0a] 1);
    reflexivity.
Defined.

(** Conversely no exception ever yields a 200. *)
Lemma failure_is_not_200 (e : exn) : http_code e <> 200.
Proof. destruct e; discriminate. Qed.

(** ** C5: one handle for the life of the process *)

(** C5. In every run that gets to serve, the call log of the process is the
    one [Open] of COM5 at 9600 baud with a 1 s timeout, made at startup,
    followed by writes only: the port is opened exactly once, never closed or
    reopened, no view does anything to the handle but write, and at no moment
    of the run is more than one handle open. *)
Theorem single_handle
        (wz : werkzeug) (h : Serial.host) (ins : list input)
        (out : list response) (s : Serial.t) :
  main wz h ins = Served out s ->
  (exists ws,
      Serial.log s = Serial.Open py"COM5" 9600 1 :: map Serial.Write ws) /\
  count is_Open (Serial.log s) = 1%nat /\
  count is_Close (Serial.log s) = 0%nat /\
  (forall n, (handles_open (take n (Serial.log s)) <= 1)%Z) /\
  (forall r s0, exists ws,
      Serial.log (dispatch wz r s0).2 =
      Serial.log s0 ++ map Serial.Write ws).
Proof.
  unfold main, Serial.open. destruct (Serial.openable h); [|discriminate].
  set (ser := Serial.mk true (Serial.line0 h) [] _).
  destruct (serve_log wz ins ser) as [ws Hws].
  destruct (serve wz ins ser) as [out' s'] eqn:E. intros [= <- <-].
  simpl in Hws.
  assert (Ho : forall ws', count is_Open
             (Serial.Open py"COM5" 9600 1 :: map Serial.Write ws') = 1%nat).
  { intros ws'. change (S (count is_Open (map Serial.Write ws')) = 1%nat).
    now rewrite count_writes. }
  assert (Hc : forall ws', count is_Close
             (Serial.Open py"COM5" 9600 1 :: map Serial.Write ws') = 0%nat).
  { intros ws'. change (count is_Close (map Serial.Write ws') = 0%nat).
    now rewrite count_writes. }
  split; [now exists ws|]. rewrite Hws.
  split; [apply Ho|]. split; [apply Hc|]. split.
  - intros n. unfold handles_open.
    destruct (take_opened n (Serial.Open py"COM5" 9600 1) ws) as [->|[ws' ->]].
    + unfold count. simpl. lia.
    + rewrite Ho, Hc. lia.
  - intros r s0. destruct (step_log wz (Request r) s0) as [w Hw].
    rewrite step_request in Hw. now exists w.
Qed.

Lemma single_handle_witness :
  exists out s,
    main From_2_3 {| Serial.openable := true; Serial.line0 := Serial.Up |}
      [Request (Json (VDict ∅)); Request Malformed] = Served out s /\
    count is_Open (Serial.log s) = 1%nat /\
    count is_Close (Serial.log s) = 0%nat.
Proof.
  eexists _, _. split; [vm_compute; reflexivity|].
  refine (let H := single_handle From_2_3
                     {| Serial.openable := true; Serial.line0 := Serial.Up |}
                     [Request (Json (VDict ∅)); Request Malformed] _ _ eq_refl
          in _).
  destruct H as (_ & Ho & Hc & _). split; [exact Ho|exact Hc].
Defined.

(** ** C6: the port cannot be opened *)

(** C6. If the serial device cannot be opened when the process starts, the
    exception of the constructor ends the process: whatever requests are
    waiting, none is served and no response is produced. *)
Theorem startup_failure_is_fatal
        (wz : werkzeug) (h : Serial.host) (ins : list input) :
  Serial.openable h = false ->
  main wz h ins = Crashed SerialException.
Proof. intros H. unfold main, Serial.open. now rewrite H. Qed.

Lemma startup_failure_is_fatal_witness :
  main From_2_3 {| Serial.openable := false; Serial.line0 := Serial.Up |}
    [Request (Json (VDict ∅))] = Crashed SerialException.
Proof.
  apply (startup_failure_is_fatal From_2_3
           {| Serial.openable := false; Serial.line0 := Serial.Up |}).
  reflexivity.
Defined.

(** ** C7: what one request does to the port *)

(** C7 (as amended). Each request makes at most one call on the handle: one
    [write] when the view gets as far as [ser.write] (the body is a JSON
    object whose [command] is absent or a string that can be encoded), none
    when it raises before. It never reads, and it changes neither the open
    flag nor the line. *)
Theorem at_most_one_write (wz : werkzeug) (r : request) (s : Serial.t) :
  Serial.log (dispatch wz r s).2 =
    Serial.log s ++
    match wire wz r with
    | inr data => [Serial.Write data]
    | inl _ => []
    end /\
  count is_Read (Serial.log (dispatch wz r s).2) =
    count is_Read (Serial.log s) /\
  Serial.is_open (dispatch wz r s).2 = Serial.is_open s /\
  Serial.line (dispatch wz r s).2 = Serial.line s.
Proof.
  destruct (dispatch_frame wz r s) as (Ho & Hl & Hlog & _).
  split; [exact Hlog|]. split; [|now split].
  rewrite Hlog, count_app. destruct (wire wz r); unfold count; simpl; lia.
Qed.

(** C7, as the claim words it, fails: a request whose [command] is a number
    raises before the write, so the call log stays empty. *)
Lemma no_write_on_bad_command :
  Serial.log
    (dispatch From_2_3 (Json (VDict {[ py"command" := VInt 1 ]})) fresh).2 = []
  /\ count is_Write
       (Serial.log
          (dispatch From_2_3 (Json (VDict {[ py"command" := VInt 1 ]})) fresh).2)
     <> 1%nat.
Proof. split; [reflexivity|]. vm_compute. discriminate. Qed.

(** ** C8: sequential requests *)



(** ** C9: a [command] that is not a string *)

(** C9. If the body is a JSON object whose [command] is not a string, the
    view raises [TypeError] at the concatenation: the value is neither
    coerced nor replaced by the empty string, the response is a 500, and the
    port is exactly as it was, nothing written. *)
Theorem non_string_command_fails
        (wz : werkzeug) (d : gmap str pyval) (v : pyval) (s : Serial.t) :
  d !! py"command" = Some v ->
  (forall c, v <> VStr c) ->
  send_command wz (Json (VDict d)) s = (inl TypeError, s) /\
  dispatch wz (Json (VDict d)) s =
    ({| status_code := 500; payload := None |}, s).
Proof.
  intros Hd Hv.
  assert (Hw : wire wz (Json (VDict d)) = inl TypeError).
  { unfold wire, command_of. simpl. rewrite Hd.
    destruct v; try reflexivity. now destruct (Hv s0). }
  split; [now apply send_command_early|].
  exact (dispatch_early wz _ TypeError s Hw).
Qed.

Lemma non_string_command_fails_witness :
  send_command From_2_3 (Json (VDict {[ py"command" := VNone ]})) fresh =
    (inl TypeError, fresh) /\
  dispatch From_2_3 (Json (VDict {[ py"command" := VNone ]})) fresh =
    ({| status_code := 500; payload := None |}, fresh).
Proof.
  apply (non_string_command_fails From_2_3 {[ py"command" := VNone ]} VNone fresh);
    [reflexivity | discriminate].
Defined.

(** ** C10: a body that is not an object *)

(** C10. If the body is valid JSON but not an object, the view raises
    [AttributeError] at the field lookup: the request is not treated as an
    empty command, the response is a 500, and the port is exactly as it was,
    nothing written. *)
Theorem non_object_body_fails (wz : werkzeug) (v : pyval) (s : Serial.t) :
  (forall d, v <> VDict d) ->
  send_command wz (Json v) s = (inl AttributeError, s) /\
  dispatch wz (Json v) s =
    ({| status_code := 500; payload := None |}, s).
Proof.
  intros Hv.
  assert (Hw : wire wz (Json v) = inl AttributeError).
  { unfold wire, command_of. simpl.
    destruct v; try reflexivity. now destruct (Hv d). }
  split; [now apply send_command_early|].
  exact (dispatch_early wz _ AttributeError s Hw).
Qed.

Lemma non_object_body_fails_witness :
  send_command From_2_3 (Json (VList [])) fresh = (inl AttributeError, fresh) /\
  dispatch From_2_3 (Json (VList [])) fresh =
    ({| status_code := 500; payload := None |}, fresh).
Proof.
  apply (non_object_body_fails From_2_3 (VList []) fresh). discriminate.
Defined.

(** ** Scenarios *)

(** The body [{"command": "LED_ON"}]: the device receives [LED_ON\n] and the
    command comes back as sent. *)
Example scenario_led_on :
  dispatch From_2_3 (Json (VDict {[ py"command" := VStr py"LED_ON" ]})) fresh =
  ({| status_code := 200; payload := Some (ack py"LED_ON") |},
   Serial.mk true Serial.Up ["L"; "E"; "D"; "_"; "O"; "N"; "010"]%byte
     [Serial.Write ["L"; "E"; "D"; "_"; "O"; "N"; "010"]%byte]).
Proof. vm_compute. reflexivity. Qed.

(** The body [{}]: the device receives a lone newline. *)
Example scenario_empty_object :
  dispatch From_2_3 (Json (VDict ∅)) fresh =
  ({| status_code := 200; payload := Some (ack []) |},
   Serial.mk true Serial.Up [x0a] [Serial.Write [x0a]]).
Proof. vm_compute. reflexivity. Qed.

(** A command holding a lone surrogate cannot be encoded: the view raises
    before the write and the port sees nothing. *)
Example scenario_lone_surrogate :
  send_command From_2_3 (Json (VDict {[ py"command" := VStr [55296] ]})) fresh =
  (inl UnicodeEncodeError, fresh).
Proof. vm_compute. reflexivity. Qed.

(** On a line that fails after two bytes the device keeps those two bytes,
    the caller gets a 500, and the next request is still served. *)
Example scenario_line_down :
  serve From_2_3
    [Request (Json (VDict {[ py"command" := VStr py"GO" ]}));
     LineChange Serial.Up;
     Request (Json (VDict ∅))]
    (Serial.mk true (Serial.Down 2) [] []) =
  ([ {| status_code := 500; payload := None |};
     {| status_code := 200; payload := Some (ack []) |} ],
   Serial.mk true Serial.Up ["G"; "O"; "010"]%byte
     [Serial.Write ["G"; "O"; "010"]%byte; Serial.Write [x0a]]).
Proof. vm_compute. reflexivity. Qed.

(** * Further properties of the module *)

(** ** What [strip] keeps and what it removes *)

Section StripShape.

Lemma lstrip_split (s : str) :
  exists pre, s = pre ++ lstrip s /\ forallb isspace pre = true.
Proof.
  induction s as [|c t IH]; simpl.
  - now exists [].
  - destruct (isspace c) eqn:E.
    + destruct IH as (pre & Hs & Hp). exists (c :: pre). simpl.
      rewrite E, Hp. split; [now f_equal|reflexivity].
    + now exists [].
Qed.

Lemma lstrip_head (s : str) (c : N) (t : str) :
  lstrip s = c :: t -> isspace c = false.
Proof.
  induction s as [|a u IH]; simpl; [discriminate|].
  destruct (isspace a) eqn:E; [exact IH|]. now intros [= <- _].
Qed.

Lemma forallb_rev (p : N -> bool) (l : str) :
  forallb p (rev l) = forallb p l.
Proof.
  induction l as [|a l IH]; simpl; [reflexivity|].
  rewrite forallb_app, IH. simpl. rewrite andb_true_r. apply andb_comm.
Qed.

Lemma rstrip_split (s : str) :
  exists post, s = rstrip s ++ post /\ forallb isspace post = true.
Proof.
  unfold rstrip. destruct (lstrip_split (rev s)) as (pre & Hs & Hp).
  exists (rev pre). split; [|now rewrite forallb_rev].
  rewrite <- rev_app_distr, <- Hs. now rewrite rev_involutive.
Qed.

Lemma rstrip_last (s : str) (c : N) (t : str) :
  rstrip s = t ++ [c] -> isspace c = false.
Proof.
  unfold rstrip. intros H. apply (f_equal (@rev N)) in H.
  rewrite rev_involutive, rev_app_distr in H. simpl in H.
  exact (lstrip_head _ _ _ H).
Qed.

Lemma lstrip_fixed (s : str) :
  (forall c t, s = c :: t -> isspace c = false) -> lstrip s = s.
Proof.
  destruct s as [|c t]; [reflexivity|]. intros H. simpl.
  now rewrite (H c t eq_refl).
Qed.

Lemma rstrip_fixed (s : str) :
  (forall c t, s = t ++ [c] -> isspace c = false) -> rstrip s = s.
Proof.
  intros H. unfold rstrip. rewrite lstrip_fixed; [apply rev_involutive|].
  intros c t E. apply (H c (rev t)).
  rewrite <- (rev_involutive s), E. reflexivity.
Qed.

(** [strip] cuts a whitespace-only prefix and a whitespace-only suffix and
    leaves a string that neither starts nor ends with whitespace. *)
Lemma strip_shape (s : str) :
  exists pre post,
    s = pre ++ strip s ++ post /\
    forallb isspace pre = true /\
    forallb isspace post = true /\
    (forall c t, strip s = c :: t -> isspace c = false) /\
    (forall c t, strip s = t ++ [c] -> isspace c = false).
Proof.
  unfold strip.
  destruct (lstrip_split s) as (pre & Hs & Hpre).
  destruct (rstrip_split (lstrip s)) as (post & Hu & Hpost).
  exists pre, post. split; [now rewrite <- Hu|].
  split; [exact Hpre|]. split; [exact Hpost|]. split.
  - intros c t E. rewrite E in Hu. simpl in Hu.
    exact (lstrip_head _ _ _ Hu).
  - intros c t E. exact (rstrip_last _ _ _ E).
Qed.

Lemma strip_idempotent (s : str) : strip (strip s) = strip s.
Proof.
  destruct (strip_shape s) as (pre & post & _ & _ & _ & Hh & Hl).
  unfold strip at 1. rewrite (lstrip_fixed _ Hh). now apply rstrip_fixed.
Qed.

Lemma lstrip_all_space (s : str) :
  forallb isspace s = true -> lstrip s = [].
Proof.
  induction s as [|c t IH]; simpl; [reflexivity|].
  intros [Hc Ht]%andb_true_iff. rewrite Hc. now apply IH.
Qed.

Lemma strip_all_space (s : str) :
  forallb isspace s = true -> strip s = [].
Proof. intros H. unfold strip. now rewrite lstrip_all_space. Qed.

End StripShape.

(** ** What [encode] produces *)

Section Utf8Facts.

Lemma to_N_byte_of_N (n : N) : Byte.to_N (byte_of_N n) = n mod 256.
Proof.
  unfold byte_of_N. destruct (Byte.of_N (n mod 256)) as [b|] eqn:E.
  - now apply Byte.to_of_N.
  - apply Byte.of_N_None_iff in E.
    pose proof (N.mod_upper_bound n 256). lia.
Qed.

Lemma byte_of_N_newline (c : N) :
  c < 128 -> (byte_of_N c = x0a <-> c = LF).
Proof.
  intros Hc. split.
  - intros E. apply (f_equal Byte.to_N) in E. rewrite to_N_byte_of_N in E.
    rewrite N.mod_small in E by lia. exact E.
  - intros ->. reflexivity.
Qed.

Lemma high_byte_not_newline (K x : N) :
  N.testbit K 7 = true -> byte_of_N (N.lor K x) <> x0a.
Proof.
  intros HK E. apply (f_equal Byte.to_N) in E. rewrite to_N_byte_of_N in E.
  assert (H : N.testbit (N.lor K x mod 2 ^ 8) 7 = N.testbit 10 7)
    by (change (2 ^ 8) with 256; now rewrite E).
  rewrite N.mod_pow2_bits_low, N.lor_spec, HK in H by lia. discriminate.
Qed.

Lemma cont_not_newline (c k : N) : cont c k <> x0a.
Proof. unfold cont. now apply high_byte_not_newline. Qed.

Lemma newline_bytes_cons (b : byte) (bs : list byte) :
  newline_bytes (b :: bs) =
  ((if Byte.byte_eq_dec b x0a then 1 else 0) + newline_bytes bs)%nat.
Proof.
  unfold newline_bytes. simpl.
  destruct (Byte.byte_eq_dec b x0a); reflexivity.
Qed.

Lemma newline_bytes_app (a b : list byte) :
  newline_bytes (a ++ b) = (newline_bytes a + newline_bytes b)%nat.
Proof. apply List.count_occ_app. Qed.

Lemma newline_bytes_high (b : byte) (bs : list byte) :
  b <> x0a -> newline_bytes (b :: bs) = newline_bytes bs.
Proof.
  intros H. rewrite newline_bytes_cons.
  now destruct (Byte.byte_eq_dec b x0a).
Qed.

(** A newline byte on the wire always is a newline character of the string:
    every byte of a multi-byte sequence has its top bit set. *)
Lemma encode_cp_newline (c : N) (b : list byte) :
  encode_cp c = Some b ->
  newline_bytes b = if N.eq_dec c LF then 1%nat else 0%nat.
Proof.
  unfold encode_cp.
  destruct (N.ltb_spec c 128) as [H1|H1].
  { intros [= <-]. rewrite newline_bytes_cons.
    destruct (byte_of_N_newline c H1) as [Hn Hb].
    destruct (Byte.byte_eq_dec (byte_of_N c) x0a) as [E|E],
             (N.eq_dec c LF) as [F|F]; try reflexivity.
    - now destruct (F (Hn E)).
    - now destruct (E (Hb F)). }
  assert (Hc : c <> LF) by (unfold LF; lia).
  destruct (N.eq_dec c LF) as [F|_]; [now destruct (Hc F)|].
  destruct (N.ltb_spec c 2048) as [H2|H2].
  { intros [= <-].
    rewrite !newline_bytes_high;
      [reflexivity | apply cont_not_newline
       | now apply high_byte_not_newline]. }
  destruct (N.ltb_spec c 65536) as [H3|H3].
  { destruct (is_surrogate c); [discriminate|]. intros [= <-].
    rewrite !newline_bytes_high;
      [reflexivity | apply cont_not_newline | apply cont_not_newline
       | now apply high_byte_not_newline]. }
  destruct (N.ltb_spec c 1114112) as [H4|H4]; [|discriminate].
  intros [= <-].
  rewrite !newline_bytes_high;
    [reflexivity | apply cont_not_newline | apply cont_not_newline
     | apply cont_not_newline | now apply high_byte_not_newline].
Qed.

Lemma encode_newlines (s : str) (bs : list byte) :
  encode s = Some bs -> newline_bytes bs = newline_chars s.
Proof.
  revert bs. induction s as [|c t IH]; simpl; intros bs.
  - now intros [= <-].
  - destruct (encode_cp c) as [b|] eqn:Ec; [|discriminate].
    destruct (encode t) as [bt|]; [|discriminate]. intros [= <-].
    rewrite newline_bytes_app, (encode_cp_newline c b Ec), (IH bt eq_refl).
    unfold newline_chars. simpl.
    destruct (N.eq_dec c LF) as [E|E]; reflexivity.
Qed.

Lemma encode_cp_length (c : N) (b : list byte) :
  encode_cp c = Some b -> (1 <= length b <= 4)%nat.
Proof.
  unfold encode_cp.
  destruct (c <? 128); [intros [= <-]; simpl; lia|].
  destruct (c <? 2048); [intros [= <-]; simpl; lia|].
  destruct (c <? 65536).
  { destruct (is_surrogate c); [discriminate|]. intros [= <-]. simpl. lia. }
  destruct (c <? 1114112); [|discriminate]. intros [= <-]. simpl. lia.
Qed.

Lemma encode_length (s : str) (bs : list byte) :
  encode s = Some bs ->
  (length s <= length bs <= 4 * length s)%nat.
Proof.
  revert bs. induction s as [|c t IH]; simpl; intros bs.
  - intros [= <-]. simpl. lia.
  - destruct (encode_cp c) as [b|] eqn:Ec; [|discriminate].
    destruct (encode t) as [bt|]; [|discriminate]. intros [= <-].
    rewrite length_app. pose proof (encode_cp_length c b Ec).
    pose proof (IH bt eq_refl). lia.
Qed.

(** ASCII goes out byte for byte. *)
Lemma encode_ascii (s : str) :
  Forall (fun c => c < 128) s -> encode s = Some (byte_of_N <$> s).
Proof.
  induction 1 as [|c t Hc _ IH]; [reflexivity|]. simpl.
  unfold encode_cp. apply N.ltb_lt in Hc. rewrite Hc, IH. reflexivity.
Qed.

(** Every whitespace character can be encoded. *)
Lemma isspace_encodable (c : N) :
  isspace c = true -> exists b, encode_cp c = Some b.
Proof.
  intros H.
  assert (Hle : c <= 12288).
  { unfold isspace in H.
    rewrite ?orb_true_iff, ?andb_true_iff, ?N.leb_le, ?N.eqb_eq in H. lia. }
  assert (Hs : c <= 12288 /\ is_surrogate c = false).
  { split; [exact Hle|]. unfold is_surrogate.
    replace (55296 <=? c) with false by (symmetry; apply N.leb_gt; lia).
    reflexivity. }
  clear Hle.
  destruct Hs as [Hle Hsur]. unfold encode_cp. rewrite Hsur.
  destruct (c <? 128); [eauto|]. destruct (c <? 2048); [eauto|].
  destruct (N.ltb_spec c 65536); [eauto|lia].
Qed.

Lemma whitespace_encodable (s : str) :
  forallb isspace s = true -> exists bs, encode s = Some bs.
Proof.
  induction s as [|c t IH]; simpl; [eauto|].
  intros [Hc Ht]%andb_true_iff.
  destruct (isspace_encodable c Hc) as [b ->].
  destruct (IH Ht) as [bt ->]. eauto.
Qed.

End Utf8Facts.

(** ** Commands that cannot be sent *)

Section Unencodable.

Lemma encode_cp_surrogate (c : N) :
  is_surrogate c = true -> encode_cp c = None.
Proof.
  intros H. unfold encode_cp. rewrite H.
  unfold is_surrogate in H. apply andb_true_iff in H as [Ha Hb].
  apply N.leb_le in Ha. apply N.leb_le in Hb.
  replace (c <? 128) with false by (symmetry; apply N.ltb_ge; lia).
  replace (c <? 2048) with false by (symmetry; apply N.ltb_ge; lia).
  replace (c <? 65536) with true by (symmetry; apply N.ltb_lt; lia).
  reflexivity.
Qed.

Lemma encode_surrogate (s : str) (c : N) :
  c ∈ s -> is_surrogate c = true -> encode s = None.
Proof.
  intros Hin Hc. induction Hin as [c t|c a t _ IH]; simpl.
  - now rewrite (encode_cp_surrogate c Hc).
  - rewrite (IH Hc). now destruct (encode_cp a).
Qed.

End Unencodable.

(** X1. A command holding a surrogate code point (JSON can carry one as an
    escape) is refused: [encode] raises, the response is a 500, and not one
    byte of the command, not even the part before the surrogate, is written. *)
Theorem surrogate_command_is_refused
        (wz : werkzeug) (d : gmap str pyval) (C : str) (c : N)
        (s : Serial.t) :
  d !! py"command" = Some (VStr C) ->
  c ∈ C ->
  is_surrogate c = true ->
  send_command wz (Json (VDict d)) s = (inl UnicodeEncodeError, s) /\
  dispatch wz (Json (VDict d)) s =
    ({| status_code := 500; payload := None |}, s).
Proof.
  intros Hd Hin Hc.
  assert (Hw : wire wz (Json (VDict d)) = inl UnicodeEncodeError).
  { unfold wire. rewrite (command_of_dict_str wz d C Hd).
    unfold py_encode. rewrite encode_app, (encode_surrogate C c Hin Hc).
    reflexivity. }
  split; [now apply send_command_early|].
  exact (dispatch_early wz _ UnicodeEncodeError s Hw).
Qed.

Lemma surrogate_command_is_refused_witness :
  send_command From_2_3
    (Json (VDict {[ py"command" := VStr [76; 69; 68; 55357] ]})) fresh =
    (inl UnicodeEncodeError, fresh) /\
  dispatch From_2_3
    (Json (VDict {[ py"command" := VStr [76; 69; 68; 55357] ]})) fresh =
    ({| status_code := 500; payload := None |}, fresh).
Proof.
  apply (surrogate_command_is_refused From_2_3
           {[ py"command" := VStr [76; 69; 68; 55357] ]}
           [76; 69; 68; 55357] 55357 fresh).
  - reflexivity.
  - repeat constructor.
  - reflexivity.
Defined.

(** X2. Only the [command] field of the body counts: two JSON objects that
    agree on it (whatever other fields they carry) get the same response and
    leave the port in the same state. *)
Theorem other_fields_are_ignored
        (wz : werkzeug) (d1 d2 : gmap str pyval) (s : Serial.t) :
  d1 !! py"command" = d2 !! py"command" ->
  dispatch wz (Json (VDict d1)) s = dispatch wz (Json (VDict d2)) s.
Proof.
  intros H.
  assert (Hc : command_of wz (Json (VDict d1)) =
               command_of wz (Json (VDict d2)))
    by (unfold command_of; simpl; now rewrite H).
  unfold dispatch. now rewrite !send_command_unfold, Hc.
Qed.

Lemma other_fields_are_ignored_witness :
  dispatch From_2_3
    (Json (VDict {[ py"command" := VStr py"GO"; py"speed" := VInt 3 ]}))
    fresh =
  dispatch From_2_3 (Json (VDict {[ py"command" := VStr py"GO" ]})) fresh.
Proof.
  apply (other_fields_are_ignored From_2_3
           {[ py"command" := VStr py"GO"; py"speed" := VInt 3 ]}
           {[ py"command" := VStr py"GO" ]} fresh).
  vm_compute. reflexivity.
Defined.



(** ** The echoed command *)

Section EchoFacts.

Lemma encode_app_inv (a b : str) (bs : list byte) :
  encode (a ++ b) = Some bs ->
  exists x y, encode a = Some x /\ encode b = Some y /\ bs = x ++ y.
Proof.
  rewrite encode_app. destruct (encode a) as [x|]; [|discriminate].
  destruct (encode b) as [y|]; [|discriminate]. intros [= <-]. eauto.
Qed.

(** Stripping an encodable string leaves an encodable, no longer string. *)
Lemma encode_strip (s : str) (bs : list byte) :
  encode s = Some bs ->
  exists bs', encode (strip s) = Some bs' /\ (length bs' <= length bs)%nat.
Proof.
  intros E. destruct (strip_shape s) as (pre & post & Hs & _).
  rewrite Hs in E.
  destruct (encode_app_inv _ _ _ E) as (x & y & _ & Ey & ->).
  destruct (encode_app_inv _ _ _ Ey) as (m & z & Em & _ & ->).
  exists m. split; [exact Em|]. rewrite !length_app. lia.
Qed.

End EchoFacts.

(** X6. On success the echoed command is the command with a run of
    whitespace cut from its start and from its end, and nothing else
    changed: it is a contiguous piece of the command, what is cut is
    whitespace only, and the echo itself neither starts nor ends with
    whitespace. *)
Theorem echo_is_the_trimmed_middle
        (wz : werkzeug) (d : gmap str pyval) (C : str) (bs : list byte)
        (s : Serial.t) :
  d !! py"command" = Some (VStr C) ->
  encode C = Some bs ->
  Serial.available s = true ->
  exists E pre post,
    (dispatch wz (Json (VDict d)) s).1 =
      {| status_code := 200; payload := Some (ack E) |} /\
    C = pre ++ E ++ post /\
    forallb isspace pre = true /\
    forallb isspace post = true /\
    (forall c t, E = c :: t -> isspace c = false) /\
    (forall c t, E = t ++ [c] -> isspace c = false).
Proof.
  intros Hd He Ha.
  destruct (strip_shape C) as (pre & post & Hs & Hpre & Hpost & Hh & Hl).
  exists (strip C), pre, post.
  rewrite (dispatch_sent wz _ (C ++ [LF]) (bs ++ [x0a]) s
             (command_of_dict_str wz d C Hd) (encode_newline C bs He) Ha).
  simpl. rewrite strip_newline. repeat split; assumption.
Qed.

Lemma echo_is_the_trimmed_middle_witness :
  exists E pre post,
    (dispatch From_2_3
       (Json (VDict {[ py"command" := VStr py"  MOVE 1 2 " ]})) fresh).1 =
      {| status_code := 200; payload := Some (ack E) |} /\
    py"  MOVE 1 2 " = pre ++ E ++ post /\
    forallb isspace pre = true /\
    forallb isspace post = true /\
    (forall c t, E = c :: t -> isspace c = false) /\
    (forall c t, E = t ++ [c] -> isspace c = false).
Proof.
  apply (echo_is_the_trimmed_middle From_2_3
           {[ py"command" := VStr py"  MOVE 1 2 " ]} py"  MOVE 1 2 "
           [" "; " "; "M"; "O"; "V"; "E"; " "; "1"; " "; "2"; " "]%byte fresh);
    vm_compute; reflexivity.
Defined.

(** X7. The echo is stable: sending the echoed command of an accepted
    request back is accepted too, echoes the very same string, and puts no
    more bytes on the line than the original did. *)
Theorem echo_replays_to_itself
        (wz : werkzeug) (C : str) (bs : list byte) (s : Serial.t) :
  encode C = Some bs ->
  Serial.available s = true ->
  exists bs',
    (length bs' <= length bs)%nat /\
    dispatch wz (Json (VDict {[ py"command" := VStr (strip C) ]})) s =
    ({| status_code := 200; payload := Some (ack (strip C)) |},
     Serial.mk true Serial.Up (Serial.rx s ++ bs' ++ [x0a])
       (Serial.log s ++ [Serial.Write (bs' ++ [x0a])])).
Proof.
  intros He Ha. destruct (encode_strip C bs He) as (bs' & He' & Hlen).
  exists bs'. split; [exact Hlen|].
  rewrite (dispatch_sent wz _ (strip C ++ [LF]) (bs' ++ [x0a]) s);
    [ now rewrite strip_newline, strip_idempotent
    | apply command_of_dict_str, lookup_singleton_eq
    | now apply encode_newline
    | exact Ha ].
Qed.

Lemma echo_replays_to_itself_witness :
  exists bs',
    (length bs' <= 4)%nat /\
    dispatch From_2_3 (Json (VDict {[ py"command" := VStr (strip py" ON ") ]}))
      fresh =
    ({| status_code := 200; payload := Some (ack (strip py" ON ")) |},
     Serial.mk true Serial.Up (Serial.rx fresh ++ bs' ++ [x0a])
       (Serial.log fresh ++ [Serial.Write (bs' ++ [x0a])])).
Proof.
  apply (echo_replays_to_itself From_2_3 py" ON "
           [" "; "O"; "N"; " "]%byte fresh); reflexivity.
Defined.

(** X8. A command made of whitespace only is always accepted on a working
    port (every whitespace character can be encoded): its bytes and the
    newline go to the device, yet the response echoes the empty string, the
    same body as for a request with no command at all. *)
Theorem blank_command_echoes_empty
        (wz : werkzeug) (d : gmap str pyval) (C : str) (s : Serial.t) :
  d !! py"command" = Some (VStr C) ->
  forallb isspace C = true ->
  Serial.available s = true ->
  exists bs,
    encode C = Some bs /\
    (length C <= length bs)%nat /\
    dispatch wz (Json (VDict d)) s =
    ({| status_code := 200; payload := Some (ack []) |},
     Serial.mk true Serial.Up (Serial.rx s ++ bs ++ [x0a])
       (Serial.log s ++ [Serial.Write (bs ++ [x0a])])).
Proof.
  intros Hd Hw Ha. destruct (whitespace_encodable C Hw) as [bs He].
  exists bs. split; [exact He|].
  split; [exact (proj1 (encode_length C bs He))|].
  rewrite (dispatch_sent wz _ (C ++ [LF]) (bs ++ [x0a]) s
             (command_of_dict_str wz d C Hd) (encode_newline C bs He) Ha).
  now rewrite strip_newline, (strip_all_space C Hw).
Qed.

Lemma blank_command_echoes_empty_witness :
  exists bs,
    encode [32; 9; 160] = Some bs /\
    (length [32; 9; 160] <= length bs)%nat /\
    dispatch From_2_3 (Json (VDict {[ py"command" := VStr [32; 9; 160] ]}))
      fresh =
    ({| status_code := 200; payload := Some (ack []) |},
     Serial.mk true Serial.Up (Serial.rx fresh ++ bs ++ [x0a])
       (Serial.log fresh ++ [Serial.Write (bs ++ [x0a])])).
Proof.
  apply (blank_command_echoes_empty From_2_3
           {[ py"command" := VStr [32; 9; 160] ]} [32; 9; 160] fresh);
    reflexivity.
Defined.

(** ** The bytes on the line *)

(** X9. The view does not split or escape the command: the payload handed
    to [ser.write] holds exactly one newline byte more than the command has
    newline characters, so a command with [n] newlines inside reaches a
    line-oriented device as [n + 1] lines. No other character of the command
    can produce a newline byte. *)
Theorem payload_lines
        (wz : werkzeug) (d : gmap str pyval) (C : str) (data : list byte) :
  d !! py"command" = Some (VStr C) ->
  wire wz (Json (VDict d)) = inr data ->
  newline_bytes data = S (newline_chars C).
Proof.
  intros Hd Hw. unfold wire in Hw.
  rewrite (command_of_dict_str wz d C Hd) in Hw. unfold py_encode in Hw.
  destruct (encode (C ++ [LF])) as [bs|] eqn:E; [|discriminate].
  injection Hw as ->.
  rewrite (encode_newlines _ _ E). unfold newline_chars.
  rewrite List.count_occ_app. simpl. lia.
Qed.

Lemma payload_lines_witness :
  newline_bytes ["A"; "010"; "B"; "010"]%byte = S (newline_chars [65; 10; 66]).
Proof.
  apply (payload_lines From_2_3 {[ py"command" := VStr [65; 10; 66] ]}
           [65; 10; 66] ["A"; "010"; "B"; "010"]%byte); reflexivity.
Defined.

(** X10. Size of a write: the payload of a command of [n] characters has
    between [n + 1] and [4 n + 1] bytes. *)
Theorem payload_size
        (wz : werkzeug) (d : gmap str pyval) (C : str) (data : list byte) :
  d !! py"command" = Some (VStr C) ->
  wire wz (Json (VDict d)) = inr data ->
  (length C + 1 <= length data <= 4 * length C + 1)%nat.
Proof.
  intros Hd Hw. unfold wire in Hw.
  rewrite (command_of_dict_str wz d C Hd) in Hw. unfold py_encode in Hw.
  destruct (encode (C ++ [LF])) as [bs|] eqn:E; [|discriminate].
  injection Hw as <-.
  destruct (encode_newline_inv C bs E) as (b & Eb & ->).
  pose proof (encode_length C b Eb). rewrite length_app. simpl. lia.
Qed.

Lemma payload_size_witness :
  (length [233; 33] + 1 <= length ["195"; "169"; "!"; "010"]%byte
   <= 4 * length [233; 33] + 1)%nat.
Proof.
  apply (payload_size From_2_3 {[ py"command" := VStr [233; 33] ]} [233; 33]
           ["195"; "169"; "!"; "010"]%byte); reflexivity.
Defined.

(** X11. An ASCII command can always be encoded and goes out byte for byte:
    one byte per character, each with the value of its character, then the
    newline byte. *)
Theorem ascii_command_goes_out_verbatim
        (wz : werkzeug) (d : gmap str pyval) (C : str) :
  d !! py"command" = Some (VStr C) ->
  Forall (fun c => c < 128) C ->
  wire wz (Json (VDict d)) = inr ((byte_of_N <$> C) ++ [x0a]) /\
  Forall2 (fun c b => Byte.to_N b = c) C (byte_of_N <$> C).
Proof.
  intros Hd Ha. split.
  - unfold wire. rewrite (command_of_dict_str wz d C Hd).
    unfold py_encode.
    now rewrite (encode_newline C _ (encode_ascii C Ha)).
  - clear Hd. induction Ha as [|c t Hc _ IH]; [constructor|].
    rewrite fmap_cons. constructor; [|exact IH].
    rewrite to_N_byte_of_N. apply N.mod_small. lia.
Qed.

Lemma ascii_command_goes_out_verbatim_witness :
  wire From_2_3 (Json (VDict {[ py"command" := VStr py"LED_ON" ]})) =
    inr ((byte_of_N <$> py"LED_ON") ++ [x0a]) /\
  Forall2 (fun c b => Byte.to_N b = c) py"LED_ON" (byte_of_N <$> py"LED_ON").
Proof.
  apply (ascii_command_goes_out_verbatim From_2_3
           {[ py"command" := VStr py"LED_ON" ]} py"LED_ON").
  - reflexivity.
  - repeat constructor.
Defined.

(** ** The server over time *)

Section ServeFacts.

Variable wz : werkzeug.

Lemma serve_app (a b : list input) (s : Serial.t) :
  serve wz (a ++ b) s =
  ((serve wz a s).1 ++ (serve wz b (serve wz a s).2).1,
   (serve wz b (serve wz a s).2).2).
Proof.
  revert s. induction a as [|i a IH]; intros s.
  - simpl. now destruct (serve wz b s).
  - rewrite <- app_comm_cons, !serve_cons, IH. cbn [fst snd].
    now rewrite app_assoc.
Qed.

Lemma dispatch_closed (r : request) (s : Serial.t) :
  Serial.is_open s = false ->
  status_code (dispatch wz r s).1 <> 200 /\
  Serial.rx (dispatch wz r s).2 = Serial.rx s /\
  Serial.is_open (dispatch wz r s).2 = false.
Proof.
  intros Ho. destruct (wire wz r) as [e|data] eqn:Hw.
  - rewrite (dispatch_early wz r e s Hw). simpl.
    split; [apply failure_is_not_200|now split].
  - destruct (wire_command wz r data Hw) as (command & Hc & He).
    unfold dispatch. rewrite send_command_unfold, Hc, He.
    unfold Serial.write. rewrite Ho. simpl. repeat split; [discriminate|exact Ho].
Qed.

Lemma step_is_open (i : input) (s : Serial.t) :
  i <> HandleClosed ->
  Serial.is_open (step wz i s).2 = Serial.is_open s.
Proof.
  destruct i as [r| |]; intros Hi.
  - rewrite step_request. simpl.
    now destruct (dispatch_frame wz r s) as (Ho & _).
  - reflexivity.
  - now destruct Hi.
Qed.

Lemma serve_is_open (ins : list input) (s : Serial.t) :
  HandleClosed ∉ ins ->
  Serial.is_open (serve wz ins s).2 = Serial.is_open s.
Proof.
  revert s. induction ins as [|i rest IH]; intros s Hn; [reflexivity|].
  apply not_elem_of_cons in Hn as [Hi Hrest].
  rewrite serve_cons. simpl. rewrite (IH _ Hrest).
  apply step_is_open. congruence.
Qed.

End ServeFacts.

(** X12. The [ser.write] calls the server makes while it serves a run of
    inputs are, in arrival order, the payloads of the requests whose view
    gets as far as the write, whatever the line and the handle do in
    between: no write is skipped, repeated, retried or reordered. *)
Theorem write_calls_follow_requests
        (wz : werkzeug) (ins : list input) (s : Serial.t) :
  Serial.log (serve wz ins s).2 =
    Serial.log s ++ (Serial.Write <$> payloads wz (requests_of ins)).
Proof.
  revert s. induction ins as [|i rest IH]; intros s.
  - simpl. now rewrite app_nil_r.
  - rewrite serve_cons. cbn [fst snd]. rewrite (IH (step wz i s).2).
    destruct i as [r| |].
    + rewrite step_request. cbn [fst snd requests_of payloads].
      destruct (dispatch_frame wz r s) as (_ & _ & Hlog & _).
      rewrite Hlog.
      destruct (wire wz r) as [e|data].
      * now rewrite app_nil_r.
      * rewrite fmap_cons, <- app_assoc. reflexivity.
    + reflexivity.
    + reflexivity.
Qed.


(** X14. The module never reopens the port: once the handle is closed, no
    later request is acknowledged, the device receives nothing more, and the
    handle is still closed after any further run. *)
Theorem closed_handle_stays_closed
        (wz : werkzeug) (ins : list input) (s : Serial.t) :
  Serial.is_open s = false ->
  Forall (fun resp => status_code resp <> 200) (serve wz ins s).1 /\
  Serial.rx (serve wz ins s).2 = Serial.rx s /\
  Serial.is_open (serve wz ins s).2 = false.
Proof.
  revert s. induction ins as [|i rest IH]; intros s Ho.
  - simpl. repeat split; [constructor|exact Ho].
  - rewrite serve_cons. cbn [fst snd].
    assert (Hs : Forall (fun resp => status_code resp <> 200)
                        (step wz i s).1 /\
                 Serial.rx (step wz i s).2 = Serial.rx s /\
                 Serial.is_open (step wz i s).2 = false).
    { destruct i as [r| |].
      - rewrite step_request. cbn [fst snd].
        destruct (dispatch_closed wz r s Ho) as (H1 & H2 & H3).
        repeat split; [now repeat constructor|exact H2|exact H3].
      - simpl. repeat split; [constructor|exact Ho].
      - simpl. repeat split; constructor. }
    destruct Hs as (H1 & H2 & H3).
    destruct (IH _ H3) as (I1 & I2 & I3).
    split; [now apply Forall_app|]. split; [now rewrite I2|exact I3].
Qed.

Lemma closed_handle_stays_closed_witness :
  Forall (fun resp => status_code resp <> 200)
    (serve From_2_3
       [Request (Json (VDict ∅)); LineChange Serial.Up;
        Request (Json (VDict ∅))]
       (Serial.mk false Serial.Up [] [])).1 /\
  Serial.rx
    (serve From_2_3
       [Request (Json (VDict ∅)); LineChange Serial.Up;
        Request (Json (VDict ∅))]
       (Serial.mk false Serial.Up [] [])).2 = [] /\
  Serial.is_open
    (serve From_2_3
       [Request (Json (VDict ∅)); LineChange Serial.Up;
        Request (Json (VDict ∅))]
       (Serial.mk false Serial.Up [] [])).2 = false.
Proof.
  apply (closed_handle_stays_closed From_2_3
           [Request (Json (VDict ∅)); LineChange Serial.Up;
            Request (Json (VDict ∅))]
           (Serial.mk false Serial.Up [] [])).
  reflexivity.
Defined.

(** X15. Failed writes do not poison the handle: as long as nobody closes
    it, whatever requests failed or succeeded while the line went up and
    down, the first well-formed request after the line is back is
    acknowledged with its stripped command, without any reopening. *)
Theorem line_recovery_needs_no_reopen
        (wz : werkzeug) (ins : list input) (r : request)
        (command : str) (data : list byte) (s : Serial.t) :
  Serial.is_open s = true ->
  HandleClosed ∉ ins ->
  command_of wz r = inr command ->
  encode command = Some data ->
  (serve wz (ins ++ [LineChange Serial.Up; Request r]) s).1 =
    (serve wz ins s).1 ++
    [{| status_code := 200; payload := Some (ack (strip command)) |}] /\
  count is_Open (Serial.log
    (serve wz (ins ++ [LineChange Serial.Up; Request r]) s).2) =
    count is_Open (Serial.log s).
Proof.
  intros Ho Hn Hc He.
  pose proof (serve_is_open wz ins s Hn) as Hopen. rewrite Ho in Hopen.
  split.
  - rewrite serve_app. cbn [fst]. f_equal.
    rewrite serve_cons. cbn [fst snd step]. rewrite app_nil_l.
    rewrite serve_cons, step_request. cbn [fst snd serve]. rewrite app_nil_r.
    rewrite (dispatch_sent wz r command data _ Hc He);
      [reflexivity|].
    unfold Serial.available. simpl. now rewrite Hopen.
  - destruct (serve_log wz (ins ++ [LineChange Serial.Up; Request r]) s)
      as [ws Hws].
    rewrite Hws, count_app, count_writes by reflexivity. lia.
Qed.

Lemma line_recovery_needs_no_reopen_witness :
  (serve From_2_3
     ([LineChange (Serial.Down 1); Request (Json (VDict ∅))] ++
      [LineChange Serial.Up; Request (Json (VDict ∅))]) fresh).1 =
    (serve From_2_3 [LineChange (Serial.Down 1); Request (Json (VDict ∅))]
       fresh).1 ++
    [{| status_code := 200; payload := Some (ack (strip [LF])) |}] /\
  count is_Open (Serial.log
    (serve From_2_3
       ([LineChange (Serial.Down 1); Request (Json (VDict ∅))] ++
        [LineChange Serial.Up; Request (Json (VDict ∅))]) fresh).2) =
    count is_Open (Serial.log fresh).
Proof.
  apply (line_recovery_needs_no_reopen From_2_3
           [LineChange (Serial.Down 1); Request (Json (VDict ∅))]
           (Json (VDict ∅)) [LF] [x0a] fresh).
  - reflexivity.
  - intros H. repeat (apply elem_of_cons in H as [H|H]; [discriminate|]).
    now apply elem_of_nil in H.
  - reflexivity.
  - reflexivity.
Defined.

(** ** The route *)

Section RouteFacts.

Variable wz : werkzeug.
Variable elsewhere : http_method -> str -> response.

Lemma wsgi_app_view (q : http_request) (s : Serial.t) :
  reaches_view q = true ->
  wsgi_app wz elsewhere q s = dispatch wz (body q) s.
Proof.
  unfold reaches_view, wsgi_app.
  intros [Hp Hm]%andb_true_iff.
  apply bool_decide_eq_true in Hp. apply bool_decide_eq_true in Hm.
  rewrite decide_True by exact Hp. now rewrite Hm.
Qed.

Lemma wsgi_app_inert (q : http_request) (s : Serial.t) :
  reaches_view q = false ->
  (wsgi_app wz elsewhere q s).2 = s.
Proof.
  unfold reaches_view, wsgi_app. intros H.
  destruct (decide (path q = py"/send")) as [Hp|Hp]; [|reflexivity].
  rewrite bool_decide_eq_true_2 in H by exact Hp. simpl in H.
  apply bool_decide_eq_false in H.
  destruct (method q); try reflexivity. now destruct H.
Qed.

Lemma serve_http_cons (q : http_request) (rest : list http_request)
      (s : Serial.t) :
  serve_http wz elsewhere (q :: rest) s =
  ((wsgi_app wz elsewhere q s).1
     :: (serve_http wz elsewhere rest (wsgi_app wz elsewhere q s).2).1,
   (serve_http wz elsewhere rest (wsgi_app wz elsewhere q s).2).2).
Proof.
  cbn [serve_http]. destruct (wsgi_app wz elsewhere q s) as [resp s1].
  cbn [fst snd]. now destruct (serve_http wz elsewhere rest s1).
Qed.

End RouteFacts.

(** X16. Only a POST to [/send] ever touches the port. Whatever mix of
    methods and URLs arrives, and whatever Flask answers elsewhere, a
    request with another method or another path leaves the port exactly as
    it was; the [ser.write] calls are the payloads of the POSTs to [/send]
    alone, in arrival order; and on a working port the device receives those
    payloads and nothing else. *)
Theorem only_post_send_reaches_the_port
        (wz : werkzeug) (elsewhere : http_method -> str -> response)
        (qs : list http_request) (s : Serial.t) :
  Serial.available s = true ->
  (forall q s0, reaches_view q = false ->
                (wsgi_app wz elsewhere q s0).2 = s0) /\
  Serial.log (serve_http wz elsewhere qs s).2 =
    Serial.log s ++
    (Serial.Write <$>
       payloads wz (body <$> List.filter reaches_view qs)) /\
  Serial.rx (serve_http wz elsewhere qs s).2 =
    Serial.rx s ++
    concat (wanted wz <$> (body <$> List.filter reaches_view qs)).
Proof.
  intros Ha. split; [intros q s0; apply wsgi_app_inert|].
  revert s Ha. induction qs as [|q rest IH]; intros s Ha.
  - simpl. now rewrite !app_nil_r.
  - rewrite serve_http_cons. cbn [fst snd List.filter].
    destruct (reaches_view q) eqn:Hq.
    + rewrite (wsgi_app_view wz elsewhere q s Hq).
      destruct (dispatch_available wz (body q) s Ha) as [Ha' Hrx].
      destruct (dispatch_frame wz (body q) s) as (_ & _ & Hlog & _).
      destruct (IH _ Ha') as [IHl IHr]. rewrite IHl, IHr, Hlog, Hrx.
      rewrite !fmap_cons. cbn [payloads concat].
      split; [|now rewrite app_assoc].
      destruct (wire wz (body q)) as [e|data].
      * now rewrite app_nil_r.
      * rewrite fmap_cons, <- app_assoc. reflexivity.
    + rewrite (wsgi_app_inert wz elsewhere q s Hq). exact (IH s Ha).
Qed.

Lemma only_post_send_reaches_the_port_witness :
  Serial.rx
    (serve_http From_2_3 (fun _ _ => {| status_code := 404; payload := None |})
       [ {| method := GET; path := py"/send"; body := NotJson |};
         {| method := POST; path := py"/send";
            body := Json (VDict {[ py"command" := VStr py"A" ]}) |};
         {| method := POST; path := py"/send/";
            body := Json (VDict {[ py"command" := VStr py"B" ]}) |} ]
       fresh).2 = ["A"; "010"]%byte.
Proof.
  refine (let H := only_post_send_reaches_the_port From_2_3
                     (fun _ _ => {| status_code := 404; payload := None |})
                     [ {| method := GET; path := py"/send"; body := NotJson |};
                       {| method := POST; path := py"/send";
                          body := Json (VDict {[ py"command" := VStr py"A" ]}) |};
                       {| method := POST; path := py"/send/";
                          body := Json (VDict {[ py"command" := VStr py"B" ]}) |} ]
                     fresh eq_refl in _).
  destruct H as (_ & _ & Hrx). rewrite Hrx. vm_compute. reflexivity.
Defined.

(** ** [encode] loses nothing *)

Section Utf8Injective.

Lemma lor_add (K x k : N) :
  K mod 2 ^ k = 0 -> x < 2 ^ k -> N.lor K x = K + x.
Proof.
  intros HK Hx.
  rewrite <- N.lxor_lor, <- N.add_nocarry_lxor; try reflexivity.
  all: apply N.bits_inj; intros n; rewrite N.land_spec, N.bits_0.
  all: destruct (N.lt_ge_cases n k) as [Hn|Hn].
  all: try (rewrite <- (N.mod_pow2_bits_low K k n Hn), HK, N.bits_0;
            reflexivity).
  all: rewrite <- (N.mod_small x (2 ^ k) Hx), N.mod_pow2_bits_high
         by exact Hn; apply andb_false_r.
Qed.

Lemma lead_value (K x k : N) :
  K mod 2 ^ k = 0 -> x < 2 ^ k -> K + x < 256 ->
  Byte.to_N (byte_of_N (N.lor K x)) = K + x.
Proof.
  intros HK Hx Hb. rewrite to_N_byte_of_N, (lor_add K x k HK Hx).
  now apply N.mod_small.
Qed.

Lemma cont_value (c k : N) :
  Byte.to_N (cont c k) = 128 + (c / 2 ^ (6 * k)) mod 64.
Proof.
  unfold cont. change 63 with (N.ones 6).
  rewrite N.land_ones, N.shiftr_div_pow2. change (2 ^ 6) with 64.
  pose proof (N.mod_lt (c / 2 ^ (6 * k)) 64 ltac:(lia)) as Hr.
  apply (lead_value 128 _ 6); [reflexivity|exact Hr|lia].
Qed.

Lemma cont0_value (c : N) : Byte.to_N (cont c 0) = 128 + c mod 64.
Proof. rewrite cont_value. simpl. now rewrite N.div_1_r. Qed.

Lemma cont1_value (c : N) : Byte.to_N (cont c 1) = 128 + (c / 64) mod 64.
Proof. now rewrite cont_value. Qed.

Lemma cont2_value (c : N) :
  Byte.to_N (cont c 2) = 128 + (c / 64 / 64) mod 64.
Proof.
  rewrite cont_value, N.Div0.div_div. reflexivity.
Qed.

(** The value of each byte of the encoding of [c], in arithmetic. *)
Lemma encode_cp_bytes (c : N) (b : list byte) :
  encode_cp c = Some b ->
  (c < 128 /\ exists x, b = [x] /\ Byte.to_N x = c) \/
  (128 <= c < 2048 /\ exists x y, b = [x; y] /\
     Byte.to_N x = 192 + c / 64 /\ Byte.to_N y = 128 + c mod 64) \/
  (2048 <= c < 65536 /\ exists x y z, b = [x; y; z] /\
     Byte.to_N x = 224 + c / 64 / 64 /\
     Byte.to_N y = 128 + (c / 64) mod 64 /\
     Byte.to_N z = 128 + c mod 64) \/
  (65536 <= c < 1114112 /\ exists x y z w, b = [x; y; z; w] /\
     Byte.to_N x = 240 + c / 64 / 64 / 64 /\
     Byte.to_N y = 128 + (c / 64 / 64) mod 64 /\
     Byte.to_N z = 128 + (c / 64) mod 64 /\
     Byte.to_N w = 128 + c mod 64).
Proof.
  unfold encode_cp.
  destruct (N.ltb_spec c 128) as [H1|H1].
  { intros [= <-]. left. split; [exact H1|]. eexists. split; [reflexivity|].
    rewrite to_N_byte_of_N. apply N.mod_small. lia. }
  destruct (N.ltb_spec c 2048) as [H2|H2].
  { intros [= <-]. right. left. split; [lia|]. do 2 eexists.
    split; [reflexivity|]. split; [|apply cont0_value].
    rewrite N.shiftr_div_pow2. change (2 ^ 6) with 64.
    assert (c / 64 < 32) by (apply N.Div0.div_lt_upper_bound; lia).
    apply (lead_value 192 _ 5); [reflexivity|assumption|lia]. }
  destruct (N.ltb_spec c 65536) as [H3|H3].
  { destruct (is_surrogate c); [discriminate|]. intros [= <-].
    right. right. left. split; [lia|]. do 3 eexists.
    split; [reflexivity|].
    split; [|split; [apply cont1_value|apply cont0_value]].
    rewrite N.shiftr_div_pow2. change (2 ^ 12) with (64 * 64).
    rewrite <- N.Div0.div_div.
    assert (c / 64 / 64 < 16).
    { rewrite N.Div0.div_div. apply N.Div0.div_lt_upper_bound. lia. }
    apply (lead_value 224 _ 4); [reflexivity|assumption|lia]. }
  destruct (N.ltb_spec c 1114112) as [H4|H4]; [|discriminate].
  intros [= <-]. right. right. right. split; [lia|]. do 4 eexists.
  split; [reflexivity|].
  split; [|split; [apply cont2_value|split; [apply cont1_value
                                            |apply cont0_value]]].
  rewrite N.shiftr_div_pow2. change (2 ^ 18) with (64 * 64 * 64).
  rewrite <- !N.Div0.div_div.
  assert (c / 64 / 64 / 64 < 8).
  { rewrite !N.Div0.div_div. apply N.Div0.div_lt_upper_bound. lia. }
  apply (lead_value 240 _ 3); [reflexivity|assumption|lia].
Qed.

End Utf8Injective.

Section Utf8Prefix.

#[local] Ltac euclid c :=
  pose proof (N.div_mod c 64 ltac:(lia));
  pose proof (N.mod_lt c 64 ltac:(lia));
  pose proof (N.div_mod (c / 64) 64 ltac:(lia));
  pose proof (N.mod_lt (c / 64) 64 ltac:(lia));
  pose proof (N.div_mod (c / 64 / 64) 64 ltac:(lia));
  pose proof (N.mod_lt (c / 64 / 64) 64 ltac:(lia)).

(** The first bytes of a stream determine the character they encode: no
    encoding is a prefix of another. *)
Lemma encode_cp_prefix_free (c1 c2 : N) (b1 b2 r1 r2 : list byte) :
  encode_cp c1 = Some b1 -> encode_cp c2 = Some b2 ->
  b1 ++ r1 = b2 ++ r2 -> c1 = c2.
Proof.
  intros E1 E2 H. euclid c1. euclid c2.
  destruct (encode_cp_bytes c1 b1 E1)
    as [(R1 & x1 & -> & X1)
       |[(R1 & x1 & y1 & -> & X1 & Y1)
        |[(R1 & x1 & y1 & z1 & -> & X1 & Y1 & Z1)
         |(R1 & x1 & y1 & z1 & w1 & -> & X1 & Y1 & Z1 & W1)]]];
  destruct (encode_cp_bytes c2 b2 E2)
    as [(R2 & x2 & -> & X2)
       |[(R2 & x2 & y2 & -> & X2 & Y2)
        |[(R2 & x2 & y2 & z2 & -> & X2 & Y2 & Z2)
         |(R2 & x2 & y2 & z2 & w2 & -> & X2 & Y2 & Z2 & W2)]]];
  simpl in H; simplify_eq; lia.
Qed.

Lemma encode_injective (s1 s2 : str) (bs : list byte) :
  encode s1 = Some bs -> encode s2 = Some bs -> s1 = s2.
Proof.
  revert s2 bs. induction s1 as [|c1 t1 IH]; intros [|c2 t2] bs; simpl.
  - reflexivity.
  - intros [= <-]. destruct (encode_cp c2) as [b|] eqn:E; [|discriminate].
    destruct (encode t2); [|discriminate]. intros [= H].
    pose proof (encode_cp_length c2 b E).
    destruct b; [simpl in *; lia|discriminate].
  - destruct (encode_cp c1) as [b|] eqn:E; [|discriminate].
    destruct (encode t1); [|discriminate]. intros [= <-] [= H].
    pose proof (encode_cp_length c1 b E).
    destruct b; [simpl in *; lia|discriminate].
  - destruct (encode_cp c1) as [b1|] eqn:E1; [|discriminate].
    destruct (encode t1) as [r1|] eqn:T1; [|discriminate].
    destruct (encode_cp c2) as [b2|] eqn:E2; [|discriminate].
    destruct (encode t2) as [r2|] eqn:T2; [|discriminate].
    intros [= <-] [= H]. symmetry in H.
    assert (c1 = c2) as -> by exact (encode_cp_prefix_free _ _ _ _ _ _ E1 E2 H).
    rewrite E1 in E2. injection E2 as <-.
    apply app_inv_head in H as <-. f_equal. exact (IH t2 r1 eq_refl T2).
Qed.

End Utf8Prefix.

(** X17. Nothing is lost on the way to the device: two requests whose
    writes carry the same bytes carry the same command, so different
    commands always put different bytes on the line. *)
Theorem payload_determines_command
        (wz : werkzeug) (d1 d2 : gmap str pyval) (C1 C2 : str)
        (data : list byte) :
  d1 !! py"command" = Some (VStr C1) ->
  d2 !! py"command" = Some (VStr C2) ->
  wire wz (Json (VDict d1)) = inr data ->
  wire wz (Json (VDict d2)) = inr data ->
  C1 = C2.
Proof.
  intros H1 H2 W1 W2. unfold wire in W1, W2.
  rewrite (command_of_dict_str wz d1 C1 H1) in W1.
  rewrite (command_of_dict_str wz d2 C2 H2) in W2.
  unfold py_encode in W1, W2.
  destruct (encode (C1 ++ [LF])) as [b1|] eqn:E1; [|discriminate].
  destruct (encode (C2 ++ [LF])) as [b2|] eqn:E2; [|discriminate].
  injection W1 as ->. injection W2 as ->.
  pose proof (encode_injective _ _ _ E1 E2) as H.
  now apply app_inv_tail in H.
Qed.

Lemma payload_determines_command_witness :
  wire From_2_3 (Json (VDict {[ py"command" := VStr [233; 33] ]})) =
    inr ["195"; "169"; "!"; "010"]%byte /\
  wire From_2_3
    (Json (VDict {[ py"command" := VStr [233; 33]; py"x" := VNone ]})) =
    inr ["195"; "169"; "!"; "010"]%byte /\
  [233; 33] = [233; 33].
Proof.
  split; [reflexivity|]. split; [vm_compute; reflexivity|].
  apply (payload_determines_command From_2_3
           {[ py"command" := VStr [233; 33] ]}
           {[ py"command" := VStr [233; 33]; py"x" := VNone ]}
           [233; 33] [233; 33] ["195"; "169"; "!"; "010"]%byte);
    vm_compute; reflexivity.
Defined.
